(** * The authentication fragment of [main.py]

    A shallow embedding of the request handlers of [main.py] ([register],
    [login], [read_users_me], [get_all_users]) together with the collaborators
    they compose: the credential store behind the database session, the
    password hasher, the token issuer/verifier and the access control gate.

    Handlers are written in a small state-and-exception monad over a [World]
    (the rows of the users table, the objects pending in the request's
    session, and the log), so that the definitions below read like the Python
    they embed. *)

From Stdlib Require Import ZArith.
From stdpp Require Import base strings list.

Local Open Scope Z_scope.
Local Open Scope string_scope.

(** ** Data model *)

(** [models.User]: the ORM record built by [register] with the keyword
    arguments [username], [hashed_password] and [role]. *)
Module User.
Record t := mk {
  username : string;
  hashed_password : string;
  role : string
}.
End User.

(** [schemas.UserCreate]: the body of [POST /register]; the handler reads
    [user.username] and [user.password]. *)
Module UserCreate.
Record t := mk {
  username : string;
  password : string
}.
End UserCreate.

(** [schemas.UserLogin]: the body of [POST /login]. *)
Module UserLogin.
Record t := mk {
  username : string;
  password : string
}.
End UserLogin.

(** The claims handed to the token issuer: [login] passes the dict
    [{"sub": user.username}]. *)
Module Claims.
Record t := mk { sub : string }.
End Claims.

(** Modelled from the spec: the Token of the data model, which lives in the
    absent [utils] module. It carries the subject, the two timestamps bounding
    its validity and the signature over these fields. *)
Module Token.
Record t := mk {
  subject : string;
  issued_at : Z;
  expires_at : Z;
  signature : string
}.
Inductive error := TokenExpired | TokenInvalid.
End Token.

(** JSON values, as far as the responses of this fragment need them. *)
#[local] Unset Elimination Schemes.
Inductive JSON :=
| JNull
| JStr (s : string)
| JList (items : list JSON)
| JDict (fields : list (string * JSON)).
#[local] Set Elimination Schemes.

(** ** Exceptions, the world and the handler monad *)

Inductive Exn :=
| HTTPException (status_code : Z) (detail : string)
| DuplicateIdentity
| InvalidRequestError.

Inductive Result (A : Type) :=
| Return (a : A)
| Raise (e : Exn).
Arguments Return {A} a.
Arguments Raise {A} e.

Inductive Level := INFO | WARNING.

(** A call a handler makes to the [logging] module: the function called
    ([logging.info] or [logging.warning]), the message and the username passed
    as [extra]. Whether the root logger emits the call is decided by the level
    that [configure_logging] sets, which is not part of these sources; the
    [log] of the world is the sequence of calls, not of emitted lines. *)
Record LogRecord := mkLog {
  levelname : Level;
  message : string;
  extra_username : string
}.

Record World := mkWorld {
  table : list User.t;
  pending : list User.t;
  log : list LogRecord
}.

Definition M (A : Type) : Type := World -> Result A * World.

Definition ret {A} (a : A) : M A := fun w => (Return a, w).

Definition raise {A} (e : Exn) : M A := fun w => (Raise e, w).

Definition bind {A B} (m : M A) (k : A -> M B) : M B :=
  fun w =>
    match m w with
    | (Return a, w') => k a w'
    | (Raise e, w') => (Raise e, w')
    end.

Notation "x <- m ;; k" := (bind m (fun x => k))
  (at level 100, m at next level, right associativity).
Notation "m ;;; k" := (bind m (fun _ => k))
  (at level 100, right associativity).

(** ** The credential store *)

Definition has_username (u : string) (a : User.t) : bool :=
  bool_decide (User.username a = u).

(** Modelled from the spec: the uniqueness constraint of the users table,
    declared in the absent [models] module. An insert of a username that is
    already present is the violating insert. *)
Definition username_taken (u : string) (rows : list User.t) : bool :=
  existsb (has_username u) rows.

(** Modelled from the spec: the flush of the session's pending objects, one
    INSERT per object in the order they were added; [None] is the violating
    insert. *)
Fixpoint flush (new : list User.t) (rows : list User.t) : option (list User.t) :=
  match new with
  | [] => Some rows
  | a :: rest =>
      if username_taken (User.username a) rows then None
      else flush rest (rows ++ [a])
  end.

(** [get_db]: a fresh session per request. *)
Definition get_db : M unit :=
  fun w => (Return tt, mkWorld (table w) [] (log w)).

(** The session is closed when the request completes: whatever is still
    pending is dropped. *)
Definition close_session (w : World) : World :=
  mkWorld (table w) [] (log w).

(** [db.add(obj)] *)
Definition db_add (a : User.t) : M unit :=
  fun w => (Return tt, mkWorld (table w) (pending w ++ [a]) (log w)).

(** [await db.commit()]: the transaction either inserts every pending object
    or fails with [DuplicateIdentity] and leaves the table as it was. *)
Definition db_commit : M unit :=
  fun w =>
    match flush (pending w) (table w) with
    | Some rows => (Return tt, mkWorld rows [] (log w))
    | None => (Raise DuplicateIdentity, mkWorld (table w) [] (log w))
    end.

(** The row selected by a username, if any. *)
Definition lookup_username (u : string) (rows : list User.t) : option User.t :=
  find (has_username u) rows.

(** Modelled from the spec: the store's lookup by username
    ([crud.get_user_by_username]). *)
Definition get_user_by_username (u : string) : M (option User.t) :=
  fun w => (Return (lookup_username u (table w)), w).

(** [await db.refresh(obj)]: reload the object's row. The row is found by the
    unique username. *)
Definition db_refresh (a : User.t) : M User.t :=
  fun w =>
    match lookup_username (User.username a) (table w) with
    | Some row => (Return row, w)
    | None => (Raise InvalidRequestError, w)
    end.

(** [await db.execute(select(models.User))] followed by [.scalars().all()] *)
Definition select_all_users : M (list User.t) :=
  fun w => (Return (table w), w).

(** [logging.info(msg, extra={"username": u})]: the call is recorded. *)
Definition logging_info (msg u : string) : M unit :=
  fun w => (Return tt, mkWorld (table w) (pending w) (log w ++ [mkLog INFO msg u])).

(** [logging.warning(msg, extra={"username": u})]: the call is recorded. *)
Definition logging_warning (msg u : string) : M unit :=
  fun w => (Return tt, mkWorld (table w) (pending w) (log w ++ [mkLog WARNING msg u])).

(** ** The collaborators imported from [utils] *)

(** The password hasher. [get_password_hash] draws a fresh salt on every
    call; the salt is made an explicit argument. Nothing is assumed about the
    two functions. *)
Class PasswordHasher := {
  get_password_hash : string -> string -> string;
  verify_password : string -> string -> bool
}.

(** The configuration and the primitives of the token scheme: the process-wide
    secret, the time to live of a token, the signing algorithm, and the
    transport encoding of a token with its parser. *)
Class TokenScheme := {
  SECRET_KEY : string;
  ACCESS_TOKEN_TTL : Z;
  sign : string -> string * Z * Z -> string;
  encode : Token.t -> string;
  decode : string -> option Token.t
}.

Section Handlers.
Context {hasher : PasswordHasher} {tokens : TokenScheme}.

(** *** Token issuer and verifier *)

(** Modelled from the spec: [issue] of the Token Issuer, absent from the
    sources. It embeds the subject and an expiry computed as issue time plus
    the fixed time to live, and signs these fields with the secret. *)
Definition issue (secret : string) (ttl now : Z) (c : Claims.t) : Token.t :=
  let expires := now + ttl in
  Token.mk (Claims.sub c) now expires (sign secret (Claims.sub c, now, expires)).

Definition signed_fields (tok : Token.t) : string * Z * Z :=
  (Token.subject tok, Token.issued_at tok, Token.expires_at tok).

(** Modelled from the spec: [verify] of the Token Verifier, absent from the
    sources. A token is valid iff its signature verifies against the secret
    and the current time is strictly before [expires_at]. A token signed with
    a different secret yields [TokenInvalid], whatever the time: the signature
    is what authenticates the expiry, so it is tested first. A token whose
    signature verifies fails with [TokenExpired] when past expiry, and
    otherwise returns the embedded claims. *)
Definition verify (secret : string) (now : Z) (tok : Token.t)
  : Token.error + Claims.t :=
  if bool_decide (Token.signature tok = sign secret (signed_fields tok))
  then if bool_decide (Token.expires_at tok <= now) then inl Token.TokenExpired
       else inr (Claims.mk (Token.subject tok))
  else inl Token.TokenInvalid.

(** Verification of the bearer string of a request: a string that does not
    parse as a token has a malformed structure. *)
Definition verify_bearer (now : Z) (bearer : string) : Token.error + Claims.t :=
  match decode bearer with
  | None => inl Token.TokenInvalid
  | Some tok => verify SECRET_KEY now tok
  end.

(** [create_access_token(data)] as [login] calls it; [now] is the clock read
    at the call. *)
Definition create_access_token (now : Z) (data : Claims.t) : string :=
  encode (issue SECRET_KEY ACCESS_TOKEN_TTL now data).

(** *** Access control gate *)

Definition Unauthenticated : Exn := HTTPException 401 "Unauthenticated".

Definition Forbidden : Exn := HTTPException 403 "Forbidden".

(** Modelled from the spec: the Authenticate guard ([utils.get_current_user],
    absent from the sources). It extracts the bearer token, verifies it and
    looks the account up by the returned subject; it fails with
    [Unauthenticated] if the token is missing or invalid or the account no
    longer exists. *)
Definition get_current_user (now : Z) (authorization : option string)
  : M User.t :=
  match authorization with
  | None => raise Unauthenticated
  | Some bearer =>
      match verify_bearer now bearer with
      | inl _ => raise Unauthenticated
      | inr c =>
          db_user <- get_user_by_username (Claims.sub c) ;;
          match db_user with
          | None => raise Unauthenticated
          | Some account => ret account
          end
      end
  end.

(** Modelled from the spec: the Authorize guard factory ([utils.require_role],
    absent from the sources). Given the authenticated account it fails with
    [Forbidden] if the account's role is not the required one. *)
Definition require_role (required : string) (now : Z)
  (authorization : option string) : M User.t :=
  current_user <- get_current_user now authorization ;;
  if bool_decide (User.role current_user = required) then ret current_user
  else raise Forbidden.

(** *** The handlers of [main.py] *)

(** [register], lines 62-71. *)
Definition register (salt : string) (user : UserCreate.t) : M User.t :=
  let hashed_password := get_password_hash (UserCreate.password user) salt in
  let new_user := User.mk (UserCreate.username user) hashed_password "user" in
  db_add new_user ;;;
  db_commit ;;;
  new_user <- db_refresh new_user ;;
  logging_info "New user registered" (UserCreate.username user) ;;;
  ret new_user.

(** The condition [not db_user or not verify_password(user.password,
    db_user.hashed_password)] of [login]; [or] evaluates its right operand
    only when a row was found. *)
Definition login_rejects (password : string) (db_user : option User.t) : bool :=
  match db_user with
  | None => true
  | Some account => negb (verify_password password (User.hashed_password account))
  end.

(** [login], lines 73-82. *)
Definition login (now : Z) (user : UserLogin.t) : M JSON :=
  db_user <- get_user_by_username (UserLogin.username user) ;;
  if login_rejects (UserLogin.password user) db_user then
    logging_warning "Login failed" (UserLogin.username user) ;;;
    raise (HTTPException 401 "Invalid credentials")
  else
    let access_token := create_access_token now (Claims.mk (UserLogin.username user)) in
    logging_info "User logged in" (UserLogin.username user) ;;;
    ret (JDict [("access_token", JStr access_token); ("token_type", JStr "bearer")]).

(** [read_users_me], lines 88-90. *)
Definition read_users_me (current_user : User.t) : M User.t :=
  ret current_user.

(** [get_all_users], lines 95-102. *)
Definition get_all_users (current_user : User.t) : M (list User.t) :=
  users <- select_all_users ;;
  ret users.

(** *** The HTTP boundary *)

Record Response := mkResponse {
  status : Z;
  body : JSON
}.

(** What the framework's encoder makes of an ORM object returned by a route
    that declares no response model: every column of the record. *)
Definition jsonable_encoder (account : User.t) : JSON :=
  JDict [("username", JStr (User.username account));
         ("hashed_password", JStr (User.hashed_password account));
         ("role", JStr (User.role account))].

(** Modelled from the spec: the fields of [schemas.UserOut], the public
    account view (never the hash), declared in the absent [schemas] module. *)
Definition UserOut : list string := ["username"; "role"].

(** A declared response model keeps the fields it names and drops the rest. *)
Definition apply_response_model (response_model : option (list string))
  (value : JSON) : JSON :=
  match response_model, value with
  | Some fields, JDict items =>
      JDict (filter (fun item => item.1 ∈ fields) items)
  | _, _ => value
  end.

Definition serialize_user (response_model : option (list string))
  (account : User.t) : JSON :=
  apply_response_model response_model (jsonable_encoder account).

(** A returned value is a 200 response; an [HTTPException] is a response with
    its status code and detail; any other exception is unhandled and becomes
    the generic server failure. *)
Definition respond {A} (encode_body : A -> JSON) (r : Result A) : Response :=
  match r with
  | Return a => mkResponse 200 (encode_body a)
  | Raise (HTTPException code detail) =>
      mkResponse code (JDict [("detail", JStr detail)])
  | Raise _ => mkResponse 500 (JStr "Internal Server Error")
  end.

(** One request: open the session, run the dependencies and the handler,
    build the response, close the session. *)
Definition serve {A} (encode_body : A -> JSON) (handler : M A) (w : World)
  : Response * World :=
  match (get_db ;;; handler) w with
  | (r, w') => (respond encode_body r, close_session w')
  end.

(** [@app.post("/register")], no response model. *)
Definition post_register (salt : string) (user : UserCreate.t)
  : World -> Response * World :=
  serve (serialize_user None) (register salt user).

(** [@app.post("/login")] *)
Definition post_login (now : Z) (user : UserLogin.t)
  : World -> Response * World :=
  serve (fun value => value) (login now user).

(** [@router.get("/users/me", response_model=schemas.UserOut)] with
    [Depends(get_current_user)]. *)
Definition get_users_me (now : Z) (authorization : option string)
  : World -> Response * World :=
  serve (serialize_user (Some UserOut))
        (current_user <- get_current_user now authorization ;;
         read_users_me current_user).

(** [@app.get("/admin/users")], no response model, with
    [Depends(require_role("admin"))]. *)
Definition get_admin_users (now : Z) (authorization : option string)
  : World -> Response * World :=
  serve (fun users => JList (map (serialize_user None) users))
        (current_user <- require_role "admin" now authorization ;;
         get_all_users current_user).

End Handlers.

(** ** Observations on worlds and responses *)

(** The number of accounts of the store with username [u]. *)
Definition accounts_named (u : string) (rows : list User.t) : nat :=
  length (filter (fun a => User.username a = u) rows).

(** The store's invariant: no two rows share a username. *)
Definition unique_usernames (rows : list User.t) : Prop :=
  NoDup (map User.username rows).

Definition is_client_error (r : Response) : Prop :=
  400 <= status r < 500.

(** The value of field [key] of a JSON object. *)
Definition json_field (key : string) (value : JSON) : option JSON :=
  match value with
  | JDict items =>
      match find (fun item => bool_decide (item.1 = key)) items with
      | Some item => Some item.2
      | None => None
      end
  | _ => None
  end.

(** The account [register] builds from a request body and a salt. *)
Definition registered_account {hasher : PasswordHasher}
  (salt : string) (user : UserCreate.t) : User.t :=
  User.mk (UserCreate.username user)
          (get_password_hash (UserCreate.password user) salt) "user".

(** The response of a failed login and the token response of a successful
    one, as [login] builds them. *)
Definition invalid_credentials : Response :=
  mkResponse 401 (JDict [("detail", JStr "Invalid credentials")]).

Definition token_response (access_token : string) : Response :=
  mkResponse 200
    (JDict [("access_token", JStr access_token); ("token_type", JStr "bearer")]).

(** The responses of the two guards of the access control gate. *)
Definition unauthenticated_response : Response :=
  mkResponse 401 (JDict [("detail", JStr "Unauthenticated")]).

Definition forbidden_response : Response :=
  mkResponse 403 (JDict [("detail", JStr "Forbidden")]).

(** ** The health route and sequences of requests *)

(** [healthcheck], lines 30-32: the handler builds the [JSONResponse]
    itself. *)
Definition healthcheck : M Response :=
  ret (mkResponse 200 (JDict [("status", JStr "ok")])).

(** [@app.get("/health")]: the route declares no dependency, so no session is
    opened; a response object returned by the handler is sent as it is. *)
Definition get_health (w : World) : Response * World :=
  match healthcheck w with
  | (Return response, w') => (response, w')
  | (Raise e, w') => (respond (fun _ : Response => JNull) (Raise e), w')
  end.

(** A request to one of the routes that [main.py] itself declares, with the
    inputs the handler reads from its environment (the salt drawn by the
    hasher, the clock). *)
Inductive Request :=
| PostRegister (salt : string) (user : UserCreate.t)
| PostLogin (now : Z) (user : UserLogin.t)
| GetUsersMe (now : Z) (authorization : option string)
| GetAdminUsers (now : Z) (authorization : option string)
| GetHealth.

Definition route {hasher : PasswordHasher} {tokens : TokenScheme}
  (request : Request) : World -> Response * World :=
  match request with
  | PostRegister salt user => post_register salt user
  | PostLogin now user => post_login now user
  | GetUsersMe now authorization => get_users_me now authorization
  | GetAdminUsers now authorization => get_admin_users now authorization
  | GetHealth => get_health
  end.

(** The requests of a list served one after the other. *)
Fixpoint run {hasher : PasswordHasher} {tokens : TokenScheme}
  (requests : list Request) (w : World) : list Response * World :=
  match requests with
  | [] => ([], w)
  | request :: rest =>
      match route request w with
      | (response, w1) =>
          match run rest w1 with
          | (responses, w2) => (response :: responses, w2)
          end
      end
  end.

(** The admin accounts of the store. *)
Definition admins (rows : list User.t) : list User.t :=
  filter (fun a => User.role a = "admin") rows.

(** ** Concrete collaborators for worked examples *)

Definition toy_hasher : PasswordHasher := {|
  get_password_hash := fun plain salt => salt +:+ "$" +:+ plain;
  verify_password := fun plain digest =>
    bool_decide (digest = "s" +:+ "$" +:+ plain)
|}.

Definition toy_tokens : TokenScheme := {|
  SECRET_KEY := "k";
  ACCESS_TOKEN_TTL := 30;
  sign := fun secret fields => secret +:+ "." +:+ fields.1.1;
  encode := fun tok => Token.subject tok;
  decode := fun s =>
    if bool_decide (s = "") then None
    else Some (Token.mk s 0 30 ("k" +:+ "." +:+ s))
|}.

Definition alice : User.t := User.mk "alice" "s$pw" "user".

Definition root : User.t := User.mk "root" "s$toor" "admin".

(** A token for alice that expires at 30 and is signed with another secret
    than the ["k"] of [toy_tokens]. *)
Definition forged_token : Token.t := Token.mk "alice" 0 30 "other.alice".

Definition empty_world : World := mkWorld [] [] [].

Definition small_world : World := mkWorld [alice; root] [] [].

Definition sample_requests : list Request :=
  [PostRegister "s" (UserCreate.mk "bob" "pw");
   PostLogin 1 (UserLogin.mk "bob" "pw");
   PostRegister "t" (UserCreate.mk "bob" "again");
   GetHealth;
   GetAdminUsers 2 (Some "bob")].

(** ** Facts about the credential store *)

Lemma lookup_username_Some (u : string) (rows : list User.t) (a : User.t) :
  lookup_username u rows = Some a -> User.username a = u /\ a ∈ rows.
Proof.
  unfold lookup_username. intros Hfind.
  apply find_some in Hfind as [Hin Hname].
  unfold has_username in Hname. apply bool_decide_eq_true in Hname.
  split; [exact Hname | by apply list_elem_of_In].
Qed.

Lemma username_taken_spec (u : string) (rows : list User.t) :
  username_taken u rows = true <-> u ∈ map User.username rows.
Proof.
  unfold username_taken. rewrite existsb_exists, list_elem_of_In, in_map_iff.
  split; intros (a & H1 & H2); exists a.
  - unfold has_username in H2. apply bool_decide_eq_true in H2. done.
  - split; [done |]. unfold has_username. by apply bool_decide_eq_true.
Qed.

Lemma lookup_username_None (u : string) (rows : list User.t) :
  lookup_username u rows = None <-> u ∉ map User.username rows.
Proof.
  rewrite <- username_taken_spec. unfold lookup_username, username_taken.
  induction rows as [| a rows IH]; simpl.
  - split; [discriminate | done].
  - destruct (has_username u a); simpl; [| exact IH].
    split; [discriminate | intros Hn; by destruct Hn].
Qed.

Lemma lookup_username_fresh (a : User.t) (rows : list User.t) :
  username_taken (User.username a) rows = false ->
  lookup_username (User.username a) (rows ++ [a]) = Some a.
Proof.
  unfold lookup_username, username_taken.
  induction rows as [| b rows IH]; simpl.
  - intros _. unfold has_username. by rewrite bool_decide_eq_true_2.
  - destruct (has_username (User.username a) b); simpl; [discriminate | exact IH].
Qed.

Lemma accounts_named_absent (u : string) (rows : list User.t) :
  u ∉ map User.username rows -> accounts_named u rows = 0%nat.
Proof.
  unfold accounts_named.
  induction rows as [| a rows IH]; simpl; intros Hnotin; [done |].
  apply not_elem_of_cons in Hnotin as [Hne Hnotin].
  rewrite filter_cons. destruct (decide (User.username a = u)); [congruence |].
  by apply IH.
Qed.

Lemma accounts_named_unique (u : string) (rows : list User.t) :
  unique_usernames rows -> u ∈ map User.username rows ->
  accounts_named u rows = 1%nat.
Proof.
  unfold unique_usernames.
  induction rows as [| a rows IH]; simpl; intros Hnd Hin.
  - by apply elem_of_nil in Hin.
  - apply NoDup_cons in Hnd as [Hnotin Hnd].
    unfold accounts_named. rewrite filter_cons.
    destruct (decide (User.username a = u)) as [Heq | Hne].
    + simpl. f_equal. subst u. by apply accounts_named_absent.
    + apply elem_of_cons in Hin as [Heq | Hin]; [congruence |]. by apply IH.
Qed.

Lemma unique_usernames_snoc (a : User.t) (rows : list User.t) :
  unique_usernames rows -> username_taken (User.username a) rows = false ->
  unique_usernames (rows ++ [a]).
Proof.
  unfold unique_usernames. intros Hnd Hfree.
  rewrite map_app. simpl. apply NoDup_app. split; [exact Hnd |]. split.
  - intros x Hx Hx'. apply list_elem_of_singleton in Hx'. subst x.
    apply username_taken_spec in Hx. congruence.
  - apply NoDup_singleton.
Qed.

(** ** The register route *)

Section RegisterProperties.
Context {hasher : PasswordHasher}.

Lemma register_taken (salt : string) (user : UserCreate.t) (w : World) :
  username_taken (UserCreate.username user) (table w) = true ->
  (get_db ;;; register salt user) w = (Raise DuplicateIdentity, close_session w).
Proof.
  intros Htaken.
  unfold register, bind, get_db, db_add, db_commit, close_session. simpl.
  by rewrite Htaken.
Qed.

Lemma register_fresh (salt : string) (user : UserCreate.t) (w : World) :
  username_taken (UserCreate.username user) (table w) = false ->
  (get_db ;;; register salt user) w =
  (Return (registered_account salt user),
   mkWorld (table w ++ [registered_account salt user]) []
           (log w ++ [mkLog INFO "New user registered" (UserCreate.username user)])).
Proof.
  intros Hfree.
  unfold register, bind, get_db, db_add, db_commit, db_refresh, logging_info, ret.
  simpl. rewrite Hfree. simpl.
  pose proof (lookup_username_fresh (registered_account salt user) (table w) Hfree)
    as Hrow.
  unfold registered_account in Hrow. simpl in Hrow. by rewrite Hrow.
Qed.

Lemma post_register_taken (salt : string) (user : UserCreate.t) (w : World) :
  username_taken (UserCreate.username user) (table w) = true ->
  post_register salt user w =
  (mkResponse 500 (JStr "Internal Server Error"), close_session w).
Proof.
  intros Htaken. unfold post_register, serve.
  rewrite (register_taken salt user w Htaken). reflexivity.
Qed.

Lemma post_register_fresh (salt : string) (user : UserCreate.t) (w : World) :
  username_taken (UserCreate.username user) (table w) = false ->
  post_register salt user w =
  (mkResponse 200 (jsonable_encoder (registered_account salt user)),
   mkWorld (table w ++ [registered_account salt user]) []
           (log w ++ [mkLog INFO "New user registered" (UserCreate.username user)])).
Proof.
  intros Hfree. unfold post_register, serve.
  rewrite (register_fresh salt user w Hfree). reflexivity.
Qed.

(** Registration keeps the store's invariant. *)
Lemma post_register_unique (salt : string) (user : UserCreate.t) (w : World) :
  unique_usernames (table w) ->
  unique_usernames (table (post_register salt user w).2).
Proof.
  intros Hinv.
  destruct (username_taken (UserCreate.username user) (table w)) eqn:Htaken.
  - by rewrite post_register_taken.
  - rewrite post_register_fresh by done. simpl.
    by apply (unique_usernames_snoc (registered_account salt user)).
Qed.

(** C1 as amended. If the store already holds an account with the username of
    the request, [register] fails with the store's [DuplicateIdentity] error.
    The handler does not catch it and raises no [HTTPException], so the route
    answers with the generic server failure (500), which is not a client
    error. The table is left as it was and holds exactly one account with
    that username. *)
Theorem register_duplicate_username
  (salt : string) (user : UserCreate.t) (w : World) :
  unique_usernames (table w) ->
  UserCreate.username user ∈ map User.username (table w) ->
  (get_db ;;; register salt user) w = (Raise DuplicateIdentity, close_session w)
  /\ post_register salt user w =
     (mkResponse 500 (JStr "Internal Server Error"), close_session w)
  /\ ~ is_client_error (post_register salt user w).1
  /\ table (post_register salt user w).2 = table w
  /\ accounts_named (UserCreate.username user)
       (table (post_register salt user w).2) = 1%nat.
Proof.
  intros Hinv Hin.
  assert (Htaken : username_taken (UserCreate.username user) (table w) = true)
    by by apply username_taken_spec.
  split; [by apply register_taken |].
  rewrite (post_register_taken salt user w Htaken). simpl.
  split; [reflexivity |]. split.
  - unfold is_client_error. simpl. lia.
  - split; [reflexivity |]. by apply accounts_named_unique.
Qed.

(** C6. Every account that a call to [register] adds to the store has role
    ["user"], hence never ["admin"]; a successful call adds exactly the
    account it returns, built with that role. *)
Theorem register_role_is_user
  (salt : string) (user : UserCreate.t) (w : World) (account : User.t) :
  account ∈ table (post_register salt user w).2 ->
  account ∉ table w ->
  User.role account = "user"
  /\ User.role account <> "admin"
  /\ account = registered_account salt user
  /\ (post_register salt user w).1 =
     mkResponse 200 (jsonable_encoder account).
Proof.
  intros Hnew Hold.
  destruct (username_taken (UserCreate.username user) (table w)) eqn:Htaken.
  - rewrite post_register_taken in Hnew by done. simpl in Hnew. contradiction.
  - rewrite post_register_fresh in Hnew |- * by done. simpl in Hnew |- *.
    apply elem_of_app in Hnew as [Hnew | Hnew]; [contradiction |].
    apply list_elem_of_singleton in Hnew. subst account.
    unfold registered_account. simpl. repeat split; congruence.
Qed.

End RegisterProperties.

(** ** The login route *)

Section LoginProperties.
Context {hasher : PasswordHasher} {tokens : TokenScheme}.

Lemma post_login_rejected (now : Z) (user : UserLogin.t) (w : World) :
  login_rejects (UserLogin.password user)
    (lookup_username (UserLogin.username user) (table w)) = true ->
  post_login now user w =
  (invalid_credentials,
   mkWorld (table w) []
           (log w ++ [mkLog WARNING "Login failed" (UserLogin.username user)])).
Proof.
  intros Hrej.
  unfold post_login, serve, login, bind, get_db, get_user_by_username. simpl.
  rewrite Hrej. reflexivity.
Qed.

Lemma post_login_accepted (now : Z) (user : UserLogin.t) (w : World) :
  login_rejects (UserLogin.password user)
    (lookup_username (UserLogin.username user) (table w)) = false ->
  post_login now user w =
  (token_response (create_access_token now (Claims.mk (UserLogin.username user))),
   mkWorld (table w) []
           (log w ++ [mkLog INFO "User logged in" (UserLogin.username user)])).
Proof.
  intros Hacc.
  unfold post_login, serve, login, bind, get_db, get_user_by_username. simpl.
  rewrite Hacc. reflexivity.
Qed.

(** C3. A login with a username absent from the store and a login with a
    username that is present but whose password fails verification against
    the stored hash get the same response: 401 with the detail
    "Invalid credentials". *)
Theorem login_failures_indistinguishable
  (now1 now2 : Z) (user1 user2 : UserLogin.t) (w1 w2 : World) (account : User.t) :
  lookup_username (UserLogin.username user1) (table w1) = None ->
  lookup_username (UserLogin.username user2) (table w2) = Some account ->
  verify_password (UserLogin.password user2) (User.hashed_password account) = false ->
  (post_login now1 user1 w1).1 = (post_login now2 user2 w2).1
  /\ (post_login now1 user1 w1).1 = invalid_credentials
  /\ status (post_login now2 user2 w2).1 = 401.
Proof.
  intros Habsent Hpresent Hverify.
  rewrite (post_login_rejected now1 user1 w1), (post_login_rejected now2 user2 w2).
  - by simpl.
  - rewrite Hpresent. simpl. by rewrite Hverify.
  - by rewrite Habsent.
Qed.

(** C5. A login whose username is in the store and whose password verifies
    against the stored hash succeeds with status 200 and the body
    [{access_token, token_type: "bearer"}], where the access token is the
    encoding of the token issued, at the time of the call, for the claims
    whose subject is the username of the request. *)
Theorem login_success_issues_token
  (now : Z) (user : UserLogin.t) (w : World) (account : User.t) :
  lookup_username (UserLogin.username user) (table w) = Some account ->
  verify_password (UserLogin.password user) (User.hashed_password account) = true ->
  let tok := issue SECRET_KEY ACCESS_TOKEN_TTL now (Claims.mk (UserLogin.username user)) in
  (post_login now user w).1 = token_response (encode tok)
  /\ status (post_login now user w).1 = 200
  /\ json_field "token_type" (body (post_login now user w).1) = Some (JStr "bearer")
  /\ json_field "access_token" (body (post_login now user w).1) = Some (JStr (encode tok))
  /\ Token.subject tok = UserLogin.username user.
Proof.
  intros Hpresent Hverify tok.
  rewrite (post_login_accepted now user w).
  - subst tok. unfold create_access_token. by simpl.
  - rewrite Hpresent. simpl. by rewrite Hverify.
Qed.

End LoginProperties.

(** ** The token issuer and verifier *)

Section TokenProperties.
Context {tokens : TokenScheme}.

Lemma verify_expired (secret : string) (now : Z) (tok : Token.t) :
  Token.signature tok = sign secret (signed_fields tok) ->
  Token.expires_at tok <= now -> verify secret now tok = inl Token.TokenExpired.
Proof.
  intros Hsigned Hexp. unfold verify.
  rewrite bool_decide_eq_true_2 by exact Hsigned.
  by rewrite bool_decide_eq_true_2.
Qed.

Lemma verify_forged (secret : string) (now : Z) (tok : Token.t) :
  Token.signature tok <> sign secret (signed_fields tok) ->
  verify secret now tok = inl Token.TokenInvalid.
Proof.
  intros Hforged. unfold verify. by rewrite bool_decide_eq_false_2.
Qed.

Lemma issue_signed (secret : string) (ttl issued : Z) (c : Claims.t) :
  Token.signature (issue secret ttl issued c) =
  sign secret (signed_fields (issue secret ttl issued c)).
Proof. reflexivity. Qed.

Lemma verify_issue (secret : string) (ttl issued now : Z) (c : Claims.t) :
  now < issued + ttl -> verify secret now (issue secret ttl issued c) = inr c.
Proof.
  intros Hlive. unfold verify, issue, signed_fields. simpl.
  rewrite bool_decide_eq_true_2 by reflexivity.
  rewrite bool_decide_eq_false_2 by lia.
  by destruct c.
Qed.

(** C7. For all claims [c], verifying the token issued for [c] at any time
    before its expiry returns [c] unmodified. *)
Theorem verify_issue_round_trip
  (secret : string) (ttl issued now : Z) (c : Claims.t) :
  now < Token.expires_at (issue secret ttl issued c) ->
  verify secret now (issue secret ttl issued c) = inr c.
Proof.
  intros Hlive. apply verify_issue. exact Hlive.
Qed.

End TokenProperties.

(** ** The access control gate *)

Section GateProperties.
Context {tokens : TokenScheme}.

(** The Authenticate guard on a bearer string that verifies and whose
    subject is in the store. *)
Lemma get_current_user_resolved
  (now : Z) (bearer : string) (c : Claims.t) (account : User.t) (w : World) :
  verify_bearer now bearer = inr c ->
  lookup_username (Claims.sub c) (table w) = Some account ->
  get_current_user now (Some bearer) w = (Return account, w).
Proof.
  intros Hverify Hlookup.
  unfold get_current_user, bind, get_user_by_username, ret.
  rewrite Hverify, Hlookup. reflexivity.
Qed.

(** The Authenticate guard on a bearer string that fails verification. *)
Lemma get_current_user_token_error
  (now : Z) (bearer : string) (e : Token.error) (w : World) :
  verify_bearer now bearer = inl e ->
  get_current_user now (Some bearer) w = (Raise Unauthenticated, w).
Proof.
  intros Hverify. unfold get_current_user, raise. by rewrite Hverify.
Qed.

(** C8 as amended. A token whose signature verifies against the secret, in
    particular every token that was issued with it, yields [TokenExpired]
    when verified at or after its expiry; and whichever error the verifier
    reports for the bearer token of a request, [TokenExpired] or
    [TokenInvalid], the authenticated routes answer with the same 401
    response. *)
Theorem token_errors_collapse_to_unauthenticated :
  (forall (secret : string) (now : Z) (tok : Token.t),
     Token.signature tok = sign secret (signed_fields tok) ->
     Token.expires_at tok <= now ->
     verify secret now tok = inl Token.TokenExpired)
  /\ (forall (secret : string) (ttl issued now : Z) (c : Claims.t),
        Token.expires_at (issue secret ttl issued c) <= now ->
        verify secret now (issue secret ttl issued c) = inl Token.TokenExpired)
  /\ (forall (now : Z) (bearer : string) (e : Token.error) (w : World),
        verify_bearer now bearer = inl e ->
        (get_users_me now (Some bearer) w).1 = unauthenticated_response
        /\ (get_admin_users now (Some bearer) w).1 = unauthenticated_response
        /\ status unauthenticated_response = 401).
Proof.
  split; [exact verify_expired |].
  split; [intros secret ttl issued now c; apply verify_expired, issue_signed |].
  intros now bearer e w Hverify.
  pose proof (get_current_user_token_error now bearer e (close_session w) Hverify)
    as Hguard.
  unfold get_users_me, get_admin_users, require_role, serve, bind, get_db.
  unfold close_session in Hguard. simpl in Hguard |- *.
  rewrite Hguard. by simpl.
Qed.

(** ** The admin listing and the "who am I" route *)

Lemma get_admin_users_resolved
  (now : Z) (bearer : string) (c : Claims.t) (account : User.t) (w : World) :
  verify_bearer now bearer = inr c ->
  lookup_username (Claims.sub c) (table w) = Some account ->
  get_admin_users now (Some bearer) w =
  (if bool_decide (User.role account = "admin")
   then mkResponse 200 (JList (map jsonable_encoder (table w)))
   else forbidden_response,
   close_session w).
Proof.
  intros Hverify Hlookup.
  pose proof (get_current_user_resolved now bearer c account (close_session w)
                Hverify Hlookup) as Hguard.
  unfold get_admin_users, require_role, get_all_users, select_all_users.
  unfold serve, bind, get_db, ret, raise.
  unfold close_session in Hguard |- *. simpl in Hguard |- *.
  rewrite Hguard. by destruct (bool_decide (User.role account = "admin")).
Qed.

Lemma get_users_me_resolved
  (now : Z) (bearer : string) (c : Claims.t) (account : User.t) (w : World) :
  verify_bearer now bearer = inr c ->
  lookup_username (Claims.sub c) (table w) = Some account ->
  get_users_me now (Some bearer) w =
  (mkResponse 200 (JDict [("username", JStr (User.username account));
                          ("role", JStr (User.role account))]),
   close_session w).
Proof.
  intros Hverify Hlookup.
  pose proof (get_current_user_resolved now bearer c account (close_session w)
                Hverify Hlookup) as Hguard.
  unfold get_users_me, read_users_me, serve, bind, get_db, ret.
  unfold close_session in Hguard |- *. simpl in Hguard |- *.
  rewrite Hguard. reflexivity.
Qed.

(** A 200 response of the admin listing means that the bearer token verified,
    that its subject resolved to an account and that this account is an
    admin. *)
Lemma get_admin_users_ok_inv
  (now : Z) (authorization : option string) (w : World) :
  status (get_admin_users now authorization w).1 = 200 ->
  exists bearer c account,
    authorization = Some bearer
    /\ verify_bearer now bearer = inr c
    /\ lookup_username (Claims.sub c) (table w) = Some account
    /\ User.role account = "admin".
Proof.
  unfold get_admin_users, require_role, get_current_user, get_user_by_username.
  unfold serve, bind, get_db, ret, raise. simpl.
  destruct authorization as [bearer |]; simpl; [| discriminate].
  destruct (verify_bearer now bearer) as [e | c] eqn:Hverify; simpl;
    [discriminate |].
  destruct (lookup_username (Claims.sub c) (table w)) as [account |] eqn:Hlookup;
    simpl; [| discriminate].
  destruct (bool_decide (User.role account = "admin")) eqn:Hrole; simpl;
    [| discriminate].
  intros _. exists bearer, c, account.
  apply bool_decide_eq_true in Hrole. done.
Qed.

(** C4. On a request whose bearer token verifies and resolves to an account
    of the store, the admin listing answers 403 Forbidden when the account's
    role is not ["admin"], and 200 with every account of the store when it
    is. *)
Theorem admin_listing_role_gate
  (now : Z) (bearer : string) (c : Claims.t) (account : User.t) (w : World) :
  verify_bearer now bearer = inr c ->
  lookup_username (Claims.sub c) (table w) = Some account ->
  (get_admin_users now (Some bearer) w).1 =
  (if bool_decide (User.role account = "admin")
   then mkResponse 200 (JList (map jsonable_encoder (table w)))
   else forbidden_response)
  /\ status forbidden_response = 403.
Proof.
  intros Hverify Hlookup.
  rewrite (get_admin_users_resolved now bearer c account w Hverify Hlookup).
  by simpl.
Qed.

(** C10. A successful admin listing serializes the raw account records: the
    body is the list of the store's rows with every column, so the entry of
    each account carries its [hashed_password]. The "who am I" route, which
    declares a response model, answers the same caller without that field. *)
Theorem admin_listing_exposes_hashes
  (now : Z) (authorization : option string) (w : World) :
  status (get_admin_users now authorization w).1 = 200 ->
  body (get_admin_users now authorization w).1 =
    JList (map jsonable_encoder (table w))
  /\ (forall (i : nat) (account : User.t),
        table w !! i = Some account ->
        exists entry,
          map jsonable_encoder (table w) !! i = Some entry
          /\ json_field "username" entry = Some (JStr (User.username account))
          /\ json_field "hashed_password" entry =
             Some (JStr (User.hashed_password account)))
  /\ status (get_users_me now authorization w).1 = 200
  /\ json_field "hashed_password" (body (get_users_me now authorization w).1) = None.
Proof.
  intros Hok.
  destruct (get_admin_users_ok_inv now authorization w Hok)
    as (bearer & c & caller & -> & Hverify & Hlookup & Hrole).
  rewrite (get_admin_users_resolved now bearer c caller w Hverify Hlookup).
  rewrite (get_users_me_resolved now bearer c caller w Hverify Hlookup).
  rewrite bool_decide_eq_true_2 by exact Hrole. simpl.
  split; [reflexivity |]. split; [| done].
  intros i account Hi. exists (jsonable_encoder account). split.
  - change (map jsonable_encoder (table w)) with (jsonable_encoder <$> table w).
    by rewrite list_lookup_fmap, Hi.
  - done.
Qed.

End GateProperties.

(** ** The response of a successful registration *)

(** Whenever [register] succeeds, the body of the response is the raw record:
    it carries the [hashed_password] column with the stored hash. *)
Lemma post_register_ok_body
  {hasher : PasswordHasher} (salt : string) (user : UserCreate.t) (w : World) :
  status (post_register salt user w).1 = 200 ->
  body (post_register salt user w).1 =
    jsonable_encoder (registered_account salt user)
  /\ json_field "hashed_password" (body (post_register salt user w).1) =
     Some (JStr (get_password_hash (UserCreate.password user) salt)).
Proof.
  destruct (username_taken (UserCreate.username user) (table w)) eqn:Htaken.
  - rewrite post_register_taken by done. simpl. discriminate.
  - rewrite post_register_fresh by done. simpl. done.
Qed.

(** C2, evaluated on the code. Registering alice with password pw in the
    empty store succeeds with status 200, and the body of the response has
    the field [hashed_password] holding the stored hash: the route declares
    no response model, unlike [/users/me]. *)
Theorem register_response_contains_hash :
  let response :=
    (post_register (hasher := toy_hasher) "s" (UserCreate.mk "alice" "pw")
                   empty_world).1 in
  status response = 200
  /\ json_field "hashed_password" (body response) = Some (JStr "s$pw")
  /\ body response = jsonable_encoder alice.
Proof.
  vm_compute. done.
Qed.

(** C1 as stated fails: the store of [small_world] holds alice, and
    registering alice again is answered with status 500, which is not a
    client error. *)
Lemma register_duplicate_not_client_error :
  "alice" ∈ map User.username (table small_world)
  /\ status (post_register (hasher := toy_hasher) "s"
               (UserCreate.mk "alice" "pw") small_world).1 = 500
  /\ ~ is_client_error
         (post_register (hasher := toy_hasher) "s"
            (UserCreate.mk "alice" "pw") small_world).1.
Proof.
  split; [simpl; apply list_elem_of_In; simpl; by left |].
  split; [reflexivity |].
  unfold is_client_error. simpl. lia.
Qed.

(** C8 as stated fails: [forged_token] is past its expiry at time 31, and
    since its signature does not verify the verifier answers [TokenInvalid],
    not [TokenExpired]. *)
Lemma expired_forged_token_is_invalid :
  Token.expires_at forged_token <= 31
  /\ verify (tokens := toy_tokens) "k" 31 forged_token = inl Token.TokenInvalid
  /\ verify (tokens := toy_tokens) "k" 31 forged_token <> inl Token.TokenExpired.
Proof.
  split; [simpl; lia |]. split; [reflexivity | discriminate].
Qed.

(** ** Worked instances *)

Lemma small_world_unique : unique_usernames (table small_world).
Proof.
  unfold unique_usernames. simpl.
  apply NoDup_cons. split; [| apply NoDup_singleton].
  intros Hin. apply list_elem_of_singleton in Hin. discriminate.
Defined.

Lemma register_duplicate_username_witness :
  unique_usernames (table small_world)
  /\ "alice" ∈ map User.username (table small_world)
  /\ post_register (hasher := toy_hasher) "s" (UserCreate.mk "alice" "pw")
       small_world =
     (mkResponse 500 (JStr "Internal Server Error"), close_session small_world)
  /\ accounts_named "alice"
       (table (post_register (hasher := toy_hasher) "s"
                 (UserCreate.mk "alice" "pw") small_world).2) = 1%nat.
Proof.
  assert (Hin : "alice" ∈ map User.username (table small_world))
    by (apply list_elem_of_In; simpl; by left).
  destruct (register_duplicate_username (hasher := toy_hasher) "s"
              (UserCreate.mk "alice" "pw") small_world small_world_unique Hin)
    as (_ & Hresp & _ & _ & Hone).
  exact (conj small_world_unique (conj Hin (conj Hresp Hone))).
Defined.

Lemma register_role_is_user_witness :
  alice ∈ table (post_register (hasher := toy_hasher) "s"
                   (UserCreate.mk "alice" "pw") empty_world).2
  /\ (alice ∉ table empty_world)
  /\ User.role alice = "user".
Proof.
  assert (Hnew : alice ∈ table (post_register (hasher := toy_hasher) "s"
                                  (UserCreate.mk "alice" "pw") empty_world).2)
    by (apply list_elem_of_In; simpl; by left).
  assert (Hold : alice ∉ table empty_world) by apply not_elem_of_nil.
  destruct (register_role_is_user (hasher := toy_hasher) "s"
              (UserCreate.mk "alice" "pw") empty_world alice Hnew Hold)
    as (Hrole & _).
  exact (conj Hnew (conj Hold Hrole)).
Defined.

Lemma login_failures_indistinguishable_witness :
  (post_login (hasher := toy_hasher) (tokens := toy_tokens) 5
     (UserLogin.mk "bob" "pw") small_world).1 =
  (post_login (hasher := toy_hasher) (tokens := toy_tokens) 7
     (UserLogin.mk "alice" "guess") small_world).1.
Proof.
  refine (proj1 (login_failures_indistinguishable
                   (hasher := toy_hasher) (tokens := toy_tokens) 5 7
                   (UserLogin.mk "bob" "pw") (UserLogin.mk "alice" "guess")
                   small_world small_world alice _ _ _)); reflexivity.
Defined.

Lemma login_success_issues_token_witness :
  (post_login (hasher := toy_hasher) (tokens := toy_tokens) 5
     (UserLogin.mk "alice" "pw") small_world).1 = token_response "alice".
Proof.
  refine (proj1 (login_success_issues_token
                   (hasher := toy_hasher) (tokens := toy_tokens) 5
                   (UserLogin.mk "alice" "pw") small_world alice _ _));
    reflexivity.
Defined.

Lemma verify_issue_round_trip_witness :
  5 < Token.expires_at (issue (tokens := toy_tokens) "k" 30 0 (Claims.mk "alice"))
  /\ verify (tokens := toy_tokens) "k" 5
       (issue (tokens := toy_tokens) "k" 30 0 (Claims.mk "alice")) =
     inr (Claims.mk "alice").
Proof.
  assert (Hlive : 5 < Token.expires_at
                        (issue (tokens := toy_tokens) "k" 30 0 (Claims.mk "alice")))
    by (simpl; lia).
  exact (conj Hlive
           (verify_issue_round_trip (tokens := toy_tokens) "k" 30 0 5
              (Claims.mk "alice") Hlive)).
Defined.

Lemma token_errors_collapse_to_unauthenticated_witness :
  verify (tokens := toy_tokens) "k" 30 (Token.mk "alice" 0 30 "k.alice") =
    inl Token.TokenExpired
  /\ verify_bearer (tokens := toy_tokens) 30 "alice" = inl Token.TokenExpired
  /\ verify_bearer (tokens := toy_tokens) 5 "" = inl Token.TokenInvalid
  /\ (get_users_me (tokens := toy_tokens) 30 (Some "alice") small_world).1 =
     (get_users_me (tokens := toy_tokens) 5 (Some "") small_world).1.
Proof.
  destruct (token_errors_collapse_to_unauthenticated (tokens := toy_tokens))
    as (Hexpired & _ & Hcollapse).
  assert (H1 : verify_bearer (tokens := toy_tokens) 30 "alice" =
               inl Token.TokenExpired) by reflexivity.
  assert (H2 : verify_bearer (tokens := toy_tokens) 5 "" =
               inl Token.TokenInvalid) by reflexivity.
  split; [apply Hexpired; [reflexivity | simpl; lia] |].
  split; [exact H1 |]. split; [exact H2 |].
  destruct (Hcollapse 30 "alice" Token.TokenExpired small_world H1) as [-> _].
  destruct (Hcollapse 5 "" Token.TokenInvalid small_world H2) as [-> _].
  reflexivity.
Defined.

Lemma admin_listing_role_gate_witness :
  (get_admin_users (tokens := toy_tokens) 5 (Some "alice") small_world).1 =
    forbidden_response
  /\ (get_admin_users (tokens := toy_tokens) 5 (Some "root") small_world).1 =
     mkResponse 200 (JList [jsonable_encoder alice; jsonable_encoder root]).
Proof.
  split.
  - refine (proj1 (admin_listing_role_gate (tokens := toy_tokens) 5 "alice"
                     (Claims.mk "alice") alice small_world _ _)); reflexivity.
  - refine (proj1 (admin_listing_role_gate (tokens := toy_tokens) 5 "root"
                     (Claims.mk "root") root small_world _ _)); reflexivity.
Defined.

Lemma admin_listing_exposes_hashes_witness :
  status (get_admin_users (tokens := toy_tokens) 5 (Some "root") small_world).1 = 200
  /\ body (get_admin_users (tokens := toy_tokens) 5 (Some "root") small_world).1 =
     JList [jsonable_encoder alice; jsonable_encoder root].
Proof.
  assert (Hok : status (get_admin_users (tokens := toy_tokens) 5 (Some "root")
                          small_world).1 = 200) by reflexivity.
  exact (conj Hok
           (proj1 (admin_listing_exposes_hashes (tokens := toy_tokens) 5
                     (Some "root") small_world Hok))).
Defined.

(** ** Further properties of registration *)

Lemma lookup_username_snoc_other (v : string) (a : User.t) (rows : list User.t) :
  User.username a <> v ->
  lookup_username v (rows ++ [a]) = lookup_username v rows.
Proof.
  intros Hne. unfold lookup_username.
  induction rows as [| b rows IH]; simpl.
  - unfold has_username. by rewrite bool_decide_eq_false_2.
  - by destruct (has_username v b).
Qed.

Lemma lookup_username_app_Some
  (v : string) (a : User.t) (rows extra : list User.t) :
  lookup_username v rows = Some a ->
  lookup_username v (rows ++ extra) = Some a.
Proof.
  unfold lookup_username.
  induction rows as [| b rows IH]; simpl; [discriminate |].
  by destruct (has_username v b).
Qed.

Section RegistrationFlow.
Context {hasher : PasswordHasher}.

Lemma post_register_ok_free (salt : string) (user : UserCreate.t) (w : World) :
  status (post_register salt user w).1 = 200 ->
  username_taken (UserCreate.username user) (table w) = false.
Proof.
  destruct (username_taken (UserCreate.username user) (table w)) eqn:Htaken;
    [| done].
  rewrite post_register_taken by done. simpl. discriminate.
Qed.

(** After a successful registration the store resolves the new username to
    exactly the account that was returned to the client, and resolves every
    other username as before. *)
Theorem register_lookup_round_trip
  (salt : string) (user : UserCreate.t) (w : World) :
  status (post_register salt user w).1 = 200 ->
  lookup_username (UserCreate.username user)
    (table (post_register salt user w).2) = Some (registered_account salt user)
  /\ body (post_register salt user w).1 =
     jsonable_encoder (registered_account salt user)
  /\ forall v : string,
       v <> UserCreate.username user ->
       lookup_username v (table (post_register salt user w).2) =
       lookup_username v (table w).
Proof.
  intros Hok. apply post_register_ok_free in Hok.
  rewrite post_register_fresh by done. simpl.
  split; [apply (lookup_username_fresh (registered_account salt user)); done |].
  split; [reflexivity |].
  intros v Hne. apply lookup_username_snoc_other. simpl. congruence.
Qed.

(** No call to [register], successful or not, removes or replaces a row: the
    table before the call is a prefix of the table after it, at most one row
    longer, and every username that resolved to an account still resolves to
    the same account. *)
Theorem register_keeps_existing_accounts
  (salt : string) (user : UserCreate.t) (w : World) :
  table w `prefix_of` table (post_register salt user w).2
  /\ (length (table (post_register salt user w).2) <= S (length (table w)))%nat
  /\ forall (v : string) (a : User.t),
       lookup_username v (table w) = Some a ->
       lookup_username v (table (post_register salt user w).2) = Some a.
Proof.
  destruct (username_taken (UserCreate.username user) (table w)) eqn:Htaken.
  - rewrite post_register_taken by done. simpl.
    split; [done |]. split; [lia | done].
  - rewrite post_register_fresh by done. simpl.
    split; [by apply prefix_app_r |].
    split; [rewrite length_app; simpl; lia |].
    intros v a Hlookup. by apply lookup_username_app_Some.
Qed.

(** A second registration of a username that was just registered fails,
    whatever password it carries, and does not touch the first account: the
    username still resolves to the account holding the hash of the first
    password. *)
Theorem reregistration_cannot_overwrite
  (salt1 salt2 : string) (user1 user2 : UserCreate.t) (w : World) :
  username_taken (UserCreate.username user1) (table w) = false ->
  UserCreate.username user2 = UserCreate.username user1 ->
  let w1 := (post_register salt1 user1 w).2 in
  post_register salt2 user2 w1 =
    (mkResponse 500 (JStr "Internal Server Error"), close_session w1)
  /\ lookup_username (UserCreate.username user1)
       (table (post_register salt2 user2 w1).2) =
     Some (registered_account salt1 user1).
Proof.
  intros Hfree Hsame w1.
  assert (Hrow : lookup_username (UserCreate.username user1) (table w1) =
                 Some (registered_account salt1 user1)).
  { subst w1. rewrite post_register_fresh by done. simpl.
    by apply (lookup_username_fresh (registered_account salt1 user1)). }
  assert (Htaken : username_taken (UserCreate.username user2) (table w1) = true).
  { rewrite Hsame. apply username_taken_spec.
    destruct (decide (UserCreate.username user1 ∈ map User.username (table w1)))
      as [Hin | Hnotin]; [done |].
    apply lookup_username_None in Hnotin. congruence. }
  rewrite (post_register_taken salt2 user2 w1 Htaken). simpl.
  split; [reflexivity | exact Hrow].
Qed.

End RegistrationFlow.

(** ** Further properties of login *)

Section LoginFlow.
Context {hasher : PasswordHasher} {tokens : TokenScheme}.

(** A login is answered with 200 only if the username resolves to an account
    of the store and the password verifies against that account's hash. *)
Theorem login_ok_only_with_valid_credentials
  (now : Z) (user : UserLogin.t) (w : World) :
  status (post_login now user w).1 = 200 ->
  exists account,
    lookup_username (UserLogin.username user) (table w) = Some account
    /\ verify_password (UserLogin.password user)
         (User.hashed_password account) = true.
Proof.
  destruct (login_rejects (UserLogin.password user)
              (lookup_username (UserLogin.username user) (table w))) eqn:Hrej.
  - rewrite post_login_rejected by done. simpl. discriminate.
  - intros _. unfold login_rejects in Hrej.
    destruct (lookup_username (UserLogin.username user) (table w))
      as [account |]; [| discriminate].
    exists account. split; [reflexivity |].
    by apply negb_false_iff in Hrej.
Qed.

Lemma post_login_keeps_table (now : Z) (user : UserLogin.t) (w : World) :
  table (post_login now user w).2 = table w.
Proof.
  destruct (login_rejects (UserLogin.password user)
              (lookup_username (UserLogin.username user) (table w))) eqn:Hrej.
  - by rewrite post_login_rejected.
  - by rewrite post_login_accepted.
Qed.


(** The answer to a login depends on the world through the users table
    only. *)
Lemma post_login_table (now : Z) (user : UserLogin.t) (w1 w2 : World) :
  table w1 = table w2 -> (post_login now user w1).1 = (post_login now user w2).1.
Proof.
  intros Htable.
  destruct (login_rejects (UserLogin.password user)
              (lookup_username (UserLogin.username user) (table w1))) eqn:Hrej.
  - rewrite (post_login_rejected now user w1) by done.
    rewrite (post_login_rejected now user w2) by by rewrite <- Htable. done.
  - rewrite (post_login_accepted now user w1) by done.
    rewrite (post_login_accepted now user w2) by by rewrite <- Htable. done.
Qed.

Lemma run_logins_table (attempts : list (Z * UserLogin.t)) (w : World) :
  table (run (map (fun attempt => PostLogin attempt.1 attempt.2) attempts) w).2
  = table w.
Proof.
  revert w. induction attempts as [| [now user] attempts IH]; intros w;
    [reflexivity |].
  simpl.
  destruct (post_login now user w) as [response w1] eqn:Hstep.
  specialize (IH w1).
  destruct (run (map (fun attempt => PostLogin attempt.1 attempt.2) attempts) w1)
    as [responses w2].
  simpl in IH |- *. rewrite IH.
  pose proof (post_login_keeps_table now user w) as Htable.
  by rewrite Hstep in Htable.
Qed.

(** Earlier login attempts, failed or not and however many, do not change the
    answer to a later login: there is no lockout and no counter. *)
Theorem login_unaffected_by_earlier_attempts
  (attempts : list (Z * UserLogin.t)) (now : Z) (user : UserLogin.t) (w : World) :
  (post_login now user
     (run (map (fun attempt => PostLogin attempt.1 attempt.2) attempts) w).2).1
  = (post_login now user w).1.
Proof.
  apply post_login_table. apply run_logins_table.
Qed.

End LoginFlow.

(** ** Further properties of the protected routes *)

Section ProtectedRoutes.
Context {tokens : TokenScheme}.

Lemma get_current_user_unknown_subject
  (now : Z) (bearer : string) (c : Claims.t) (w : World) :
  verify_bearer now bearer = inr c ->
  lookup_username (Claims.sub c) (table w) = None ->
  get_current_user now (Some bearer) w = (Raise Unauthenticated, w).
Proof.
  intros Hverify Hlookup.
  unfold get_current_user, bind, get_user_by_username, raise.
  by rewrite Hverify, Hlookup.
Qed.

Lemma get_users_me_cases (now : Z) (authorization : option string) (w : World) :
  get_users_me now authorization w = (unauthenticated_response, close_session w)
  \/ exists account,
       account ∈ table w
       /\ get_users_me now authorization w =
          (mkResponse 200 (JDict [("username", JStr (User.username account));
                                  ("role", JStr (User.role account))]),
           close_session w).
Proof.
  destruct authorization as [bearer |]; [| by left].
  destruct (verify_bearer now bearer) as [e | c] eqn:Hverify.
  - left. unfold get_users_me, serve, bind, get_db. simpl.
    pose proof (get_current_user_token_error now bearer e (close_session w) Hverify)
      as Hguard.
    unfold close_session in Hguard. simpl in Hguard. by rewrite Hguard.
  - destruct (lookup_username (Claims.sub c) (table w)) as [account |] eqn:Hlookup.
    + right. exists account. split.
      * by apply lookup_username_Some in Hlookup as [_ Hin].
      * by apply (get_users_me_resolved now bearer c).
    + left. unfold get_users_me, serve, bind, get_db. simpl.
      pose proof (get_current_user_unknown_subject now bearer c (close_session w)
                    Hverify Hlookup) as Hguard.
      unfold close_session in Hguard. simpl in Hguard. by rewrite Hguard.
Qed.

Lemma get_admin_users_cases
  (now : Z) (authorization : option string) (w : World) :
  get_admin_users now authorization w =
    (unauthenticated_response, close_session w)
  \/ get_admin_users now authorization w = (forbidden_response, close_session w)
  \/ exists account,
       account ∈ table w /\ User.role account = "admin"
       /\ get_admin_users now authorization w =
          (mkResponse 200 (JList (map jsonable_encoder (table w))),
           close_session w).
Proof.
  destruct authorization as [bearer |]; [| by left].
  destruct (verify_bearer now bearer) as [e | c] eqn:Hverify.
  - left. unfold get_admin_users, require_role, serve, bind, get_db. simpl.
    pose proof (get_current_user_token_error now bearer e (close_session w) Hverify)
      as Hguard.
    unfold close_session in Hguard. simpl in Hguard. by rewrite Hguard.
  - destruct (lookup_username (Claims.sub c) (table w)) as [account |] eqn:Hlookup.
    + rewrite (get_admin_users_resolved now bearer c account w Hverify Hlookup).
      destruct (bool_decide (User.role account = "admin")) eqn:Hrole.
      * right. right. exists account.
        apply bool_decide_eq_true in Hrole.
        apply lookup_username_Some in Hlookup as [_ Hin]. done.
      * right. by left.
    + left. unfold get_admin_users, require_role, serve, bind, get_db. simpl.
      pose proof (get_current_user_unknown_subject now bearer c (close_session w)
                    Hverify Hlookup) as Hguard.
      unfold close_session in Hguard. simpl in Hguard. by rewrite Hguard.
Qed.

Lemma get_users_me_world (now : Z) (authorization : option string) (w : World) :
  (get_users_me now authorization w).2 = close_session w.
Proof.
  by destruct (get_users_me_cases now authorization w) as [-> | (a & _ & ->)].
Qed.

Lemma get_admin_users_world
  (now : Z) (authorization : option string) (w : World) :
  (get_admin_users now authorization w).2 = close_session w.
Proof.
  by destruct (get_admin_users_cases now authorization w)
    as [-> | [-> | (a & _ & _ & ->)]].
Qed.

(** The two protected routes only read: whatever the authorization header
    and whatever the outcome, they leave the users table and the log as they
    were. *)
Theorem protected_routes_read_only
  (now : Z) (authorization : option string) (w : World) :
  table (get_users_me now authorization w).2 = table w
  /\ log (get_users_me now authorization w).2 = log w
  /\ table (get_admin_users now authorization w).2 = table w
  /\ log (get_admin_users now authorization w).2 = log w.
Proof.
  by rewrite get_users_me_world, get_admin_users_world.
Qed.

(** Whatever the request, the body answered by [/users/me] has no
    [hashed_password] field: the response is either the 401 of the guard or
    the 200 holding only the username and the role of an account of the
    store. *)
Theorem users_me_public_view
  (now : Z) (authorization : option string) (w : World) :
  json_field "hashed_password" (body (get_users_me now authorization w).1) = None
  /\ ((get_users_me now authorization w).1 = unauthenticated_response
      \/ exists account,
           account ∈ table w
           /\ (get_users_me now authorization w).1 =
              mkResponse 200 (JDict [("username", JStr (User.username account));
                                     ("role", JStr (User.role account))])).
Proof.
  destruct (get_users_me_cases now authorization w) as [-> | (a & Hin & ->)].
  - split; [reflexivity | by left].
  - split; [reflexivity |]. right. by exists a.
Qed.

End ProtectedRoutes.

(** ** Invariants of sequences of requests *)

Section RequestSequences.
Context {hasher : PasswordHasher} {tokens : TokenScheme}.

(** Only a successful registration changes the users table, by appending the
    registered account. *)
Lemma route_table (request : Request) (w : World) :
  table (route request w).2 = table w
  \/ exists salt user,
       request = PostRegister salt user
       /\ username_taken (UserCreate.username user) (table w) = false
       /\ table (route request w).2 =
          (table w ++ [registered_account salt user])%list.
Proof.
  destruct request as [salt user | now user | now auth | now auth |]; simpl.
  - destruct (username_taken (UserCreate.username user) (table w)) eqn:Htaken.
    + left. by rewrite post_register_taken.
    + right. exists salt, user. by rewrite post_register_fresh.
  - left. apply post_login_keeps_table.
  - left. by rewrite get_users_me_world.
  - left. by rewrite get_admin_users_world.
  - by left.
Qed.

Lemma run_cons (request : Request) (rest : list Request) (w : World) :
  (run (request :: rest) w).2 = (run rest (route request w).2).2.
Proof.
  simpl. destruct (route request w) as [response w1]. simpl.
  by destruct (run rest w1).
Qed.

Lemma run_added (requests : list Request) (w : World) :
  exists added,
    table (run requests w).2 = (table w ++ added)%list
    /\ Forall (fun a => User.role a = "user") added.
Proof.
  revert w. induction requests as [| request rest IH]; intros w.
  - exists []. by rewrite app_nil_r.
  - rewrite run_cons.
    destruct (IH (route request w).2) as (added & Htable & Hroles).
    destruct (route_table request w) as [Hsame | (salt & user & _ & _ & Hnew)].
    + exists added. by rewrite Htable, Hsame.
    + exists (registered_account salt user :: added). split.
      * rewrite Htable, Hnew, <- app_assoc. done.
      * by apply Forall_cons.
Qed.

Lemma admins_of_users (added : list User.t) :
  Forall (fun a => User.role a = "user") added -> admins added = [].
Proof.
  unfold admins. induction added as [| a added IH]; intros Hroles; [done |].
  apply Forall_cons in Hroles as [Hrole Hroles].
  rewrite filter_cons, decide_False by (rewrite Hrole; discriminate).
  by apply IH.
Qed.

Lemma run_admins (requests : list Request) (w : World) :
  admins (table (run requests w).2) = admins (table w).
Proof.
  destruct (run_added requests w) as (added & Htable & Hroles).
  rewrite Htable. unfold admins. rewrite filter_app.
  fold (admins added). by rewrite (admins_of_users added Hroles), app_nil_r.
Qed.

(** Whatever requests are served, the rows that were in the users table stay
    in place, every row added has role ["user"], and so the admin accounts
    after the requests are exactly those before. *)
Theorem run_only_adds_user_accounts (requests : list Request) (w : World) :
  exists added,
    table (run requests w).2 = (table w ++ added)%list
    /\ Forall (fun a => User.role a = "user") added
    /\ admins (table (run requests w).2) = admins (table w).
Proof.
  destruct (run_added requests w) as (added & Htable & Hroles).
  exists added. split; [done |]. split; [done | apply run_admins].
Qed.

(** If the store holds no admin account, then after any sequence of requests
    the admin listing is still refused: it answers with the guard's 401 or
    403, never with the listing. *)
Theorem admin_listing_unreachable_without_admin
  (requests : list Request) (now : Z) (authorization : option string)
  (w : World) :
  admins (table w) = [] ->
  (get_admin_users now authorization (run requests w).2).1 =
    unauthenticated_response
  \/ (get_admin_users now authorization (run requests w).2).1 =
     forbidden_response.
Proof.
  intros Hnone.
  destruct (get_admin_users_cases now authorization (run requests w).2)
    as [-> | [-> | (account & Hin & Hrole & _)]]; [by left | by right |].
  assert (Hadmin : account ∈ admins (table (run requests w).2))
    by by apply list_elem_of_filter.
  rewrite run_admins, Hnone in Hadmin. by apply elem_of_nil in Hadmin.
Qed.

(** Register, log in, then use the token. If the username is free, the hasher
    verifies the digest it produced, the token parser reads back the token
    that was issued, and the token is used before it expires, then the login
    with the registered credentials returns that token, [/users/me] answers
    with the username and the role ["user"], and the admin listing answers
    403. *)
Theorem register_login_then_use_token
  (salt u p : string) (t1 t2 : Z) (w : World) :
  let tok := issue SECRET_KEY ACCESS_TOKEN_TTL t1 (Claims.mk u) in
  username_taken u (table w) = false ->
  verify_password p (get_password_hash p salt) = true ->
  decode (encode tok) = Some tok ->
  t2 < t1 + ACCESS_TOKEN_TTL ->
  let w1 := (post_register salt (UserCreate.mk u p) w).2 in
  let session := post_login t1 (UserLogin.mk u p) w1 in
  session.1 = token_response (encode tok)
  /\ (get_users_me t2 (Some (encode tok)) session.2).1 =
     mkResponse 200 (JDict [("username", JStr u); ("role", JStr "user")])
  /\ (get_admin_users t2 (Some (encode tok)) session.2).1 = forbidden_response.
Proof.
  intros tok Hfree Hhash Hcodec Hlive w1 session.
  set (account := registered_account salt (UserCreate.mk u p)).
  assert (Hrow : lookup_username u (table w1) = Some account).
  { subst w1. rewrite post_register_fresh by done. simpl.
    by apply (lookup_username_fresh account). }
  assert (Haccept : login_rejects p (lookup_username u (table w1)) = false).
  { rewrite Hrow. simpl. by rewrite Hhash. }
  assert (Hsession : session =
            (token_response (encode tok),
             mkWorld (table w1) []
                     (log w1 ++ [mkLog INFO "User logged in" u])%list)).
  { subst session. by rewrite (post_login_accepted t1 (UserLogin.mk u p) w1). }
  assert (Hverify : verify_bearer t2 (encode tok) = inr (Claims.mk u)).
  { unfold verify_bearer. rewrite Hcodec. by apply verify_issue. }
  rewrite Hsession. simpl. split; [reflexivity |].
  rewrite (get_users_me_resolved t2 (encode tok) (Claims.mk u) account) by done.
  rewrite (get_admin_users_resolved t2 (encode tok) (Claims.mk u) account) by done.
  done.
Qed.

End RequestSequences.

(** ** Worked instances of the further properties *)

Lemma register_lookup_round_trip_witness :
  status (post_register (hasher := toy_hasher) "s" (UserCreate.mk "alice" "pw")
            empty_world).1 = 200
  /\ lookup_username "alice"
       (table (post_register (hasher := toy_hasher) "s"
                 (UserCreate.mk "alice" "pw") empty_world).2) = Some alice.
Proof.
  assert (Hok : status (post_register (hasher := toy_hasher) "s"
                          (UserCreate.mk "alice" "pw") empty_world).1 = 200)
    by reflexivity.
  exact (conj Hok
           (proj1 (register_lookup_round_trip (hasher := toy_hasher) "s"
                     (UserCreate.mk "alice" "pw") empty_world Hok))).
Defined.

Lemma register_keeps_existing_accounts_witness :
  lookup_username "root" (table small_world) = Some root
  /\ lookup_username "root"
       (table (post_register (hasher := toy_hasher) "s"
                 (UserCreate.mk "bob" "pw") small_world).2) = Some root
  /\ (length (table (post_register (hasher := toy_hasher) "s"
                       (UserCreate.mk "alice" "pw") empty_world).2) <= 1)%nat.
Proof.
  assert (Hrow : lookup_username "root" (table small_world) = Some root)
    by reflexivity.
  destruct (register_keeps_existing_accounts (hasher := toy_hasher) "s"
              (UserCreate.mk "bob" "pw") small_world) as (_ & _ & Hkept).
  destruct (register_keeps_existing_accounts (hasher := toy_hasher) "s"
              (UserCreate.mk "alice" "pw") empty_world) as (_ & Hfirst & _).
  exact (conj Hrow (conj (Hkept "root" root Hrow) Hfirst)).
Defined.

Lemma reregistration_cannot_overwrite_witness :
  lookup_username "alice"
    (table (post_register (hasher := toy_hasher) "t"
              (UserCreate.mk "alice" "other")
              (post_register (hasher := toy_hasher) "s"
                 (UserCreate.mk "alice" "pw") empty_world).2).2) = Some alice.
Proof.
  refine (proj2 (reregistration_cannot_overwrite (hasher := toy_hasher) "s" "t"
                   (UserCreate.mk "alice" "pw") (UserCreate.mk "alice" "other")
                   empty_world _ _)); reflexivity.
Defined.

Lemma login_ok_only_with_valid_credentials_witness :
  status (post_login (hasher := toy_hasher) (tokens := toy_tokens) 5
            (UserLogin.mk "alice" "pw") small_world).1 = 200
  /\ exists account,
       lookup_username "alice" (table small_world) = Some account
       /\ verify_password (PasswordHasher := toy_hasher) "pw"
            (User.hashed_password account) = true.
Proof.
  assert (Hok : status (post_login (hasher := toy_hasher) (tokens := toy_tokens) 5
                          (UserLogin.mk "alice" "pw") small_world).1 = 200)
    by reflexivity.
  exact (conj Hok
           (login_ok_only_with_valid_credentials (hasher := toy_hasher)
              (tokens := toy_tokens) 5 (UserLogin.mk "alice" "pw")
              small_world Hok)).
Defined.

Lemma admin_listing_unreachable_without_admin_witness :
  admins (table empty_world) = []
  /\ ((get_admin_users (tokens := toy_tokens) 9 (Some "bob")
         (run (hasher := toy_hasher) (tokens := toy_tokens)
            sample_requests empty_world).2).1 = unauthenticated_response
      \/ (get_admin_users (tokens := toy_tokens) 9 (Some "bob")
            (run (hasher := toy_hasher) (tokens := toy_tokens)
               sample_requests empty_world).2).1 = forbidden_response).
Proof.
  assert (Hnone : admins (table empty_world) = []) by reflexivity.
  exact (conj Hnone
           (admin_listing_unreachable_without_admin (hasher := toy_hasher)
              (tokens := toy_tokens) sample_requests 9 (Some "bob")
              empty_world Hnone)).
Defined.

Lemma register_login_then_use_token_witness :
  (get_users_me (tokens := toy_tokens) 5 (Some "alice")
     (post_login (hasher := toy_hasher) (tokens := toy_tokens) 0
        (UserLogin.mk "alice" "pw")
        (post_register (hasher := toy_hasher) "s"
           (UserCreate.mk "alice" "pw") empty_world).2).2).1 =
  mkResponse 200 (JDict [("username", JStr "alice"); ("role", JStr "user")]).
Proof.
  refine (proj1 (proj2 (register_login_then_use_token (hasher := toy_hasher)
                          (tokens := toy_tokens) "s" "alice" "pw" 0 5
                          empty_world _ _ _ _))); reflexivity.
Defined.
